(** * Video ingestion service: a shallow embedding of
      apps/api/src/services/videoService.ts (VideoService),
      apps/api/src/middlewares/upload.ts (multer configuration),
      apps/api/src/routes/video.ts (upload, read and delete routes),
      apps/api/src/config/db.ts (cached database connection),
      apps/api/src/index.ts (hourly cleanup of the uploads directory) and
      the upload step of the web client (VideoRecorder.tsx).

    Effects are modelled by a state-and-exception monad over the
    process-visible state: the uploads directory, the [recordings]
    collection, the cached database handle and the clock.  The outside
    world (ffmpeg, the OpenAI transcription endpoint, MongoDB, the
    clock, file-system faults) is a record [World] of oracles. *)

From Stdlib Require Import Ascii Sorting.Permutation Sorting.Sorted.
From stdpp Require Import base gmap strings list pretty.

Open Scope string_scope.

(** ** Data model *)

Module Multer.
(** [Express.Multer.File] as produced by [multer.memoryStorage()]. *)
Record File := {
  originalname : string;
  mimetype : string;
  size : N;
  buffer : list Byte.byte
}.
End Multer.

Module Db.
(** [interface Recording]; an [ObjectId] is its 96-bit value. *)
Record Recording := {
  _id : N;
  filename : string;
  originalName : string;
  mimeType : string;
  size : N;
  snapshot : option string;
  transcription : option string;
  createdAt : N
}.
End Db.

(** Exceptions thrown by the library calls used in the service. *)
Inductive exn :=
  | WriteError                (** [fs.writeFile] failed *)
  | FfmpegError               (** ffmpeg emitted ['error'] *)
  | OpenAIError               (** transcription request failed *)
  | MongoConnectError         (** [client.connect()] failed *)
  | MongoWriteError           (** [insertOne] failed *)
  | MongoDuplicateKey         (** [insertOne] with an existing [_id] *)
  | ENOENT (p : string)       (** [readFileSync]/[unlinkSync] on a missing file *)
  | UnlinkError (p : string)  (** [unlinkSync] failed for another reason *)
  | BSONError.                (** [new ObjectId(id)] on a malformed id *)

Inductive result (A : Type) :=
  | Ok (a : A)
  | Throw (e : exn).
Arguments Ok {A} a.
Arguments Throw {A} e.

(** The outside world seen by one process. *)
Record World := {
  clock : nat -> N;                                  (** [Date.now()] at the n-th reading *)
  write_ok : bool;                                   (** disk accepts [writeFile] *)
  ffmpeg_frame : list Byte.byte -> option (list Byte.byte);  (** screenshot of a video *)
  ffmpeg_audio : list Byte.byte -> option (list Byte.byte);  (** mp3 of a video *)
  whisper : list Byte.byte -> option string;        (** transcription of an audio file *)
  db_up : bool;                                      (** the MongoDB server is reachable *)
  insert_ok : bool;                                  (** [insertOne] is acknowledged *)
  unlink_fault : string -> bool                      (** [unlinkSync p] fails with an I/O error *)
}.

(** Process state.  [inserts] and [releases] are ghost counters: the
    number of [insertOne] writes performed and the number of times the
    temporary-file cleanup block was entered. *)
Record St := {
  files : gmap string (list Byte.byte);
  store : list Db.Recording;
  cachedDb : bool;
  next_oid : N;
  reads : nat;
  inserts : nat;
  releases : nat
}.

Definition M (A : Type) : Type := St -> St * result A.

Global Instance M_ret : MRet M := fun A a s => (s, Ok a).
Global Instance M_bind : MBind M := fun A B k m s =>
  match m s with
  | (s', Ok a) => k a s'
  | (s', Throw e) => (s', Throw e)
  end.

Definition throw {A} (e : exn) : M A := fun s => (s, Throw e).

(** [try { m } catch (error) { h(error) }] *)
Definition try_catch {A} (m : M A) (h : exn -> M A) : M A := fun s =>
  match m s with
  | (s', Ok a) => (s', Ok a)
  | (s', Throw e) => h e s'
  end.

Definition modify (f : St -> St) : M unit := fun s => (f s, Ok tt).
Definition gets {A} (f : St -> A) : M A := fun s => (s, Ok (f s)).

Definition set_files (fs : gmap string (list Byte.byte)) (s : St) : St :=
  {| files := fs; store := store s; cachedDb := cachedDb s; next_oid := next_oid s;
     reads := reads s; inserts := inserts s; releases := releases s |}.
Definition set_store (l : list Db.Recording) (s : St) : St :=
  {| files := files s; store := l; cachedDb := cachedDb s; next_oid := next_oid s;
     reads := reads s; inserts := inserts s; releases := releases s |}.
Definition set_cached (s : St) : St :=
  {| files := files s; store := store s; cachedDb := true; next_oid := next_oid s;
     reads := reads s; inserts := inserts s; releases := releases s |}.
Definition bump_oid (s : St) : St :=
  {| files := files s; store := store s; cachedDb := cachedDb s; next_oid := N.succ (next_oid s);
     reads := reads s; inserts := inserts s; releases := releases s |}.
Definition bump_reads (s : St) : St :=
  {| files := files s; store := store s; cachedDb := cachedDb s; next_oid := next_oid s;
     reads := S (reads s); inserts := inserts s; releases := releases s |}.
Definition bump_inserts (s : St) : St :=
  {| files := files s; store := store s; cachedDb := cachedDb s; next_oid := next_oid s;
     reads := reads s; inserts := S (inserts s); releases := releases s |}.
Definition bump_releases (s : St) : St :=
  {| files := files s; store := store s; cachedDb := cachedDb s; next_oid := next_oid s;
     reads := reads s; inserts := inserts s; releases := S (releases s) |}.

(** ** Encodings *)

(** [Buffer.toString('base64')], as used by [fs.readFileSync(p, 'base64')]. *)
Definition b64_table : string :=
  "ABCDEFGHIJKLMNOPQRSTUVWXYZabcdefghijklmnopqrstuvwxyz0123456789+/".

Definition b64_char (n : N) : ascii :=
  default "="%char (String.get (N.to_nat n) b64_table).

Fixpoint base64 (bs : list Byte.byte) : string :=
  match bs with
  | a :: b :: c :: rest =>
      let n := (Byte.to_N a * 65536 + Byte.to_N b * 256 + Byte.to_N c)%N in
      String (b64_char (n / 262144)) (String (b64_char ((n / 4096) mod 64))
        (String (b64_char ((n / 64) mod 64)) (String (b64_char (n mod 64)) (base64 rest))))
  | [a; b] =>
      let n := (Byte.to_N a * 65536 + Byte.to_N b * 256)%N in
      String (b64_char (n / 262144)) (String (b64_char ((n / 4096) mod 64))
        (String (b64_char ((n / 64) mod 64)) "="))
  | [a] =>
      let n := (Byte.to_N a * 65536)%N in
      String (b64_char (n / 262144)) (String (b64_char ((n / 4096) mod 64)) "==")
  | [] => ""
  end.

(** [ObjectId.prototype.toString()]: 24 lower-case hex digits. *)
Definition hex_digit (n : N) : ascii :=
  default "0"%char (String.get (N.to_nat n) "0123456789abcdef").

Fixpoint hex_go (fuel : nat) (n : N) (acc : string) : string :=
  match fuel with
  | O => acc
  | S f => hex_go f (n / 16) (String (hex_digit (n mod 16)) acc)
  end.

Definition oid_toHexString (oid : N) : string := hex_go 24 oid "".

Definition hex_val (c : ascii) : option N :=
  let n := N_of_ascii c in
  if (48 <=? n)%N && (n <=? 57)%N then Some (n - 48)%N
  else if (97 <=? n)%N && (n <=? 102)%N then Some (n - 87)%N
  else if (65 <=? n)%N && (n <=? 70)%N then Some (n - 55)%N
  else None.

Fixpoint parse_hex (s : string) (acc : N) : option N :=
  match s with
  | EmptyString => Some acc
  | String c s' => d ← hex_val c; parse_hex s' (acc * 16 + d)%N
  end.

(** [new ObjectId(id)] on a string (bson 5/6): accepted iff it matches
    [/^[0-9a-fA-F]{24}$/]; otherwise a [BSONError] is thrown ([None]). *)
Definition ObjectId_of_string (id : string) : option N :=
  if Nat.eqb (String.length id) 24 then parse_hex id 0 else None.

(** [path.join(dir, name)] for a plain file name. *)
Definition path_join (dir name : string) : string := dir +:+ "/" +:+ name.

(** [path.join(__dirname, '../uploads')] in the service. *)
Definition uploadsDir : string := "/srv/apps/api/src/uploads".

Definition tempVideoPath_of (t : N) : string :=
  path_join uploadsDir ("temp-" +:+ pretty t +:+ ".mp4").
Definition thumbnailPath_of (t : N) : string :=
  path_join uploadsDir ("thumbnail-" +:+ pretty t +:+ ".jpg").
Definition audioPath_of (t : N) : string :=
  path_join uploadsDir ("audio-" +:+ pretty t +:+ ".mp3").

(** ** Library calls and the service *)

Section Service.
Variable w : World.

Definition Date_now : M N := fun s => (bump_reads s, Ok (clock w (reads s))).

Definition writeFileAsync (p : string) (data : list Byte.byte) : M unit := fun s =>
  if write_ok w then (set_files (<[p:=data]> (files s)) s, Ok tt)
  else (s, Throw WriteError).

(** [ffmpeg(videoPath).screenshots({timestamps: ['50%'], size: '320x240', ...})] *)
Definition generateThumbnail (videoPath outputPath : string) : M unit := fun s =>
  match files s !! videoPath ≫= ffmpeg_frame w with
  | Some img => (set_files (<[outputPath:=img]> (files s)) s, Ok tt)
  | None => (s, Throw FfmpegError)
  end.

(** [ffmpeg(videoPath).toFormat('mp3').save(outputPath)] *)
Definition extractAudio (videoPath outputPath : string) : M unit := fun s =>
  match files s !! videoPath ≫= ffmpeg_audio w with
  | Some mp3 => (set_files (<[outputPath:=mp3]> (files s)) s, Ok tt)
  | None => (s, Throw FfmpegError)
  end.

(** [openai.audio.transcriptions.create({file: createReadStream(audioPath), model: 'whisper-1'})] *)
Definition transcribeAudio (audioPath : string) : M string := fun s =>
  match files s !! audioPath ≫= whisper w with
  | Some text => (s, Ok text)
  | None => (s, Throw OpenAIError)
  end.

(** [connectToDatabase()] with its [cachedDb] handle. *)
Definition connectToDatabase : M unit := fun s =>
  if cachedDb s then (s, Ok tt)
  else if db_up w then (set_cached s, Ok tt)
  else (s, Throw MongoConnectError).

Definition readFileSync_base64 (p : string) : M string := fun s =>
  match files s !! p with
  | Some d => (s, Ok (base64 d))
  | None => (s, Throw (ENOENT p))
  end.

Definition new_ObjectId : M N := fun s => (bump_oid s, Ok (next_oid s)).

(** Every collection operation first selects the server: while it is
    unreachable the operation rejects, also through a cached handle. *)
Definition select_server : M unit := fun s =>
  if db_up w then (s, Ok tt) else (s, Throw MongoConnectError).

(** [collection.insertOne(doc)]: the [_id] index is unique. *)
Definition insertOne (r : Db.Recording) : M N := fun s =>
  if negb (db_up w) then (s, Throw MongoConnectError)
  else if negb (insert_ok w) then (s, Throw MongoWriteError)
  else if existsb (fun x => N.eqb (Db._id x) (Db._id r)) (store s)
  then (s, Throw MongoDuplicateKey)
  else (bump_inserts (set_store (store s ++ [r]) s), Ok (Db._id r)).

Definition unlinkSync (p : string) : M unit := fun s =>
  match files s !! p with
  | None => (s, Throw (ENOENT p))
  | Some _ =>
      if unlink_fault w p then (s, Throw (UnlinkError p))
      else (set_files (delete p (files s)) s, Ok tt)
  end.

(** Entering the cleanup block of [processVideo] (ghost step). *)
Definition enter_cleanup : M unit := fun s => (bump_releases s, Ok tt).

(** Lines 73-75: the three temporary paths of a run. *)
Definition allocate_paths : M (string * string * string) :=
  t1 ← Date_now;
  t2 ← Date_now;
  t3 ← Date_now;
  mret (tempVideoPath_of t1, thumbnailPath_of t2, audioPath_of t3).

Definition processVideo (file : Multer.File) : M (string * string) :=
  try_catch
    (' (tempVideoPath, thumbnailPath, audioPath) ← allocate_paths;
     writeFileAsync tempVideoPath (Multer.buffer file);;
     generateThumbnail tempVideoPath thumbnailPath;;
     extractAudio tempVideoPath audioPath;;
     transcription ← transcribeAudio audioPath;
     connectToDatabase;;
     thumbnail ← readFileSync_base64 thumbnailPath;
     oid ← new_ObjectId;
     now ← Date_now;
     insertedId ← insertOne
       {| Db._id := oid;
          Db.filename := Multer.originalname file;
          Db.originalName := Multer.originalname file;
          Db.mimeType := Multer.mimetype file;
          Db.size := Multer.size file;
          Db.snapshot := None;
          Db.transcription := Some transcription;
          Db.createdAt := now |};
     enter_cleanup;;
     unlinkSync tempVideoPath;;
     unlinkSync audioPath;;
     unlinkSync thumbnailPath;;
     mret (oid_toHexString insertedId, transcription))
    (fun error => throw error).

(** [getRecordings()]: [find().sort({createdAt: -1}).toArray()].  The
    server's sort is a relation: MongoDB returns the documents of the
    collection ordered by the sort key and leaves the relative order of
    documents with equal keys unspecified.  Like every collection
    operation, [find] fails while the server is unreachable. *)
Definition sort_createdAt_desc (docs res : list Db.Recording) : Prop :=
  Permutation docs res /\
  Sorted (fun a b => (Db.createdAt b <= Db.createdAt a)%N) res.

Definition getRecordings (res : list Db.Recording) (s : St) (s' : St) (r : result (list Db.Recording)) : Prop :=
  match connectToDatabase s with
  | (s1, Ok _) =>
      if db_up w then s' = s1 /\ r = Ok res /\ sort_createdAt_desc (store s1) res
      else s' = s1 /\ r = Throw MongoConnectError
  | (s1, Throw e) => s' = s1 /\ r = Throw e
  end.

(** [collection.findOne({_id: oid})]. *)
Definition findOne (oid : N) : M (option Db.Recording) :=
  select_server;;
  gets (fun s => List.find (fun r => N.eqb (Db._id r) oid) (store s)).

(** [getRecording(id)]: [findOne({_id: new ObjectId(id)})]. *)
Definition getRecording (id : string) : M (option Db.Recording) :=
  connectToDatabase;;
  match ObjectId_of_string id with
  | None => throw BSONError
  | Some oid => findOne oid
  end.

(** [deleteOne] removes the first document matching the filter. *)
Fixpoint delete_first (oid : N) (l : list Db.Recording) : list Db.Recording :=
  match l with
  | [] => []
  | r :: l' => if N.eqb (Db._id r) oid then l' else r :: delete_first oid l'
  end.

(** [collection.deleteOne({_id: oid})]. *)
Definition deleteOne (oid : N) : M unit :=
  select_server;;
  modify (fun s => set_store (delete_first oid (store s)) s).

(** [deleteRecording(id)]: [deleteOne({_id: new ObjectId(id)})]. *)
Definition deleteRecording (id : string) : M unit :=
  connectToDatabase;;
  match ObjectId_of_string id with
  | None => throw BSONError
  | Some oid => deleteOne oid
  end.
End Service.

(** ** Upload middleware and route *)

(** [allowedTypes] of the multer [fileFilter]. *)
Definition allowedTypes : list string :=
  ["video/mp4"; "video/webm"; "video/x-m4v"; "video/x-msvideo"; "video/x-flv";
   "video/x-matroska"].

(** [allowedTypes] of the upload route. *)
Definition route_allowedTypes : list string :=
  ["video/mp4"; "video/x-m4v"; "video/x-msvideo"; "video/x-flv"; "video/x-matroska";
   "video/webm"].

(** [limits.fileSize]: [MAX_FILE_SIZE] when set (already parsed), else 100 MiB. *)
Definition fileSizeLimit (MAX_FILE_SIZE : option N) : N :=
  default (100 * 1024 * 1024)%N MAX_FILE_SIZE.

Inductive multer_error :=
  | InvalidFileType    (** [cb(new Error('Invalid file type. ...'))] *)
  | LIMIT_FILE_SIZE.   (** the file stream exceeded [limits.fileSize] *)

Definition multer_error_message (e : multer_error) : string :=
  match e with
  | InvalidFileType => "Invalid file type. Only video files are allowed."
  | LIMIT_FILE_SIZE => "File too large"
  end.

(** [upload.single('video')] with memory storage: the filter runs on the
    part header, then the body is buffered in memory up to the limit. *)
Definition multer_single (MAX_FILE_SIZE : option N) (f : Multer.File)
  : multer_error + Multer.File :=
  if negb (bool_decide (Multer.mimetype f ∈ allowedTypes)) then inl InvalidFileType
  else if (fileSizeLimit MAX_FILE_SIZE <? Multer.size f)%N then inl LIMIT_FILE_SIZE
  else inr f.

Inductive response := Respond (status : N) (body : string).

(** [router.post('/upload', upload.single('video'), handler)]; errors passed
    to [next] reach the global handler, which answers 500. *)
Definition upload_route (w : World) (MAX_FILE_SIZE : option N) (req_file : option Multer.File)
  : M response :=
  match req_file with
  | None => mret (Respond 400 "No video file uploaded")
  | Some f =>
      match multer_single MAX_FILE_SIZE f with
      | inl e => mret (Respond 500 (multer_error_message e))
      | inr f =>
          if negb (bool_decide (Multer.mimetype f ∈ route_allowedTypes))
          then mret (Respond 400 "Invalid file type. Only video files are allowed.")
          else try_catch (r ← processVideo w f; mret (Respond 201 (fst r)))
                         (fun _ => mret (Respond 500 "An unexpected error occurred"))
      end
  end.

(** Replies of the read and delete routes: the status and, for 200, the
    document sent with [res.json]. *)
Inductive reply := Reply (status : N) (doc : option Db.Recording).

(** [router.get('/:id', ...)]: 404 when [getRecording] finds nothing;
    errors go to [next] and the global handler answers 500. *)
Definition get_route (w : World) (id : string) : M reply :=
  try_catch
    (recording ← getRecording w id;
     match recording with
     | None => mret (Reply 404 None)
     | Some r => mret (Reply 200 (Some r))
     end)
    (fun _ => mret (Reply 500 None)).

(** [router.delete('/:id', ...)]: 204 once [deleteRecording] returns. *)
Definition delete_route (w : World) (id : string) : M reply :=
  try_catch (deleteRecording w id;; mret (Reply 204 None))
    (fun _ => mret (Reply 500 None)).

(** A sequence of later service calls, each in its own world and with any
    outcome: uploads, reads, deletions and listings. *)
Inductive later_calls : St -> St -> Prop :=
  | later_none s : later_calls s s
  | later_upload w f s s2 :
      later_calls (fst (processVideo w f s)) s2 -> later_calls s s2
  | later_get w id s s2 :
      later_calls (fst (getRecording w id s)) s2 -> later_calls s s2
  | later_delete w id s s2 :
      later_calls (fst (deleteRecording w id s)) s2 -> later_calls s s2
  | later_list w res s s1 r s2 :
      getRecordings w res s s1 r -> later_calls s1 s2 -> later_calls s s2.

(** ** Hourly cleanup of the uploads directory (index.ts) *)

(** [path.join(__dirname, 'uploads')] in index.ts names the same directory
    as the service's [uploadsDir].  One entry of [files.forEach]: [fs.stat]
    ([None] when it fails, which is only logged), then [fs.unlink] when
    [now - stats.mtimeMs > 3600000]; [unlink_fails] lists the paths whose
    unlink reports an error (only logged). *)
Definition sweep_entry (now : Z) (stat : string -> option Z) (unlink_fails : string -> bool)
    (acc : gmap string (list Byte.byte)) (file : string) : gmap string (list Byte.byte) :=
  let filePath := path_join uploadsDir file in
  match stat filePath with
  | None => acc
  | Some mtimeMs =>
      if (3600000 <? now - mtimeMs)%Z && negb (unlink_fails filePath)
      then delete filePath acc else acc
  end.

(** One run of the [setInterval] callback: [fs.readdir] ([None] when it
    fails, the run stops), then every entry in order. *)
Definition sweep (now : Z) (readdir : option (list string)) (stat : string -> option Z)
    (unlink_fails : string -> bool) (fs : gmap string (list Byte.byte))
    : gmap string (list Byte.byte) :=
  match readdir with
  | None => fs
  | Some entries => foldl (sweep_entry now stat unlink_fails) fs entries
  end.

(** ** Web client *)

(** [uploadVideo] of the web client (VideoRecorder.tsx). *)

(** [String.prototype.includes]. *)
Fixpoint includes (s sub : string) : bool :=
  String.prefix sub s ||
  match s with
  | EmptyString => false
  | String _ s' => includes s' sub
  end.

(** [mediaRecorderRef.current?.mimeType || 'video/mp4'] *)
Definition upload_mimeType (recorder_mimeType : option string) : string :=
  match recorder_mimeType with
  | Some m => if String.eqb m "" then "video/mp4" else m
  | None => "video/mp4"
  end.

(** The [type] of [videoBlob]. *)
Definition upload_blob_type (mimeType : string) : string :=
  if includes mimeType "mp4" then "video/mp4"
  else if includes mimeType "webm" then "video/webm"
  else "video/mp4".

Definition upload_extension (mimeType : string) : string :=
  if includes mimeType "webm" then ".webm" else ".mp4".

(** [`recording-${Date.now()}${extension}`] *)
Definition upload_filename (now : N) (mimeType : string) : string :=
  "recording-" +:+ pretty now +:+ upload_extension mimeType.

(** The file part the server's multer sees for the client's upload. *)
Definition client_upload (recorder_mimeType : option string) (now : N)
    (chunks : list Byte.byte) : Multer.File :=
  let mimeType := upload_mimeType recorder_mimeType in
  {| Multer.originalname := upload_filename now mimeType;
     Multer.mimetype := upload_blob_type mimeType;
     Multer.size := N.of_nat (length chunks);
     Multer.buffer := chunks |}.

(** ** Concrete inputs *)

Definition frame_bytes : list Byte.byte := [Byte.xff; Byte.xd8; Byte.xff; Byte.xe0].
Definition mp3_bytes : list Byte.byte := [Byte.x49; Byte.x44; Byte.x33].
Definition video_bytes : list Byte.byte := [Byte.x00; Byte.x00; Byte.x00; Byte.x18].

(** A world in which every external call succeeds, the clock reads
    [t0 + n] at its n-th reading and whisper hears "hello world". *)
Definition good_world (t0 : N) : World := {|
  clock := fun n => (t0 + N.of_nat n)%N;
  write_ok := true;
  ffmpeg_frame := fun _ => Some frame_bytes;
  ffmpeg_audio := fun _ => Some mp3_bytes;
  whisper := fun _ => Some "hello world";
  db_up := true;
  insert_ok := true;
  unlink_fault := fun _ => false
|}.

Definition empty_st : St := {|
  files := ∅; store := []; cachedDb := false; next_oid := 1%N;
  reads := 0; inserts := 0; releases := 0
|}.

Definition hello_mp4 : Multer.File := {|
  Multer.originalname := "hello.mp4";
  Multer.mimetype := "video/mp4";
  Multer.size := 4%N;
  Multer.buffer := video_bytes
|}.

Example base64_frame : base64 frame_bytes = "/9j/4A==".
Proof. reflexivity. Qed.
Example oid_hex_1 : oid_toHexString 255 = "0000000000000000000000ff".
Proof. reflexivity. Qed.
Example oid_parse_1 : ObjectId_of_string "0000000000000000000000FF" = Some 255%N.
Proof. reflexivity. Qed.

(** ** Frame reasoning *)

(** [m] leaves the collection and the ghost counters unchanged. *)
Definition frame (s s' : St) : Prop :=
  inserts s' = inserts s /\ releases s' = releases s /\ store s' = store s.

Class Quiet {A} (m : M A) : Prop := quiet_frame : forall s, frame s (fst (m s)).

Ltac solve_quiet :=
  intros ?; repeat (case_match || case_bool_decide); simpl; unfold frame; simpl; auto.

Global Instance ret_quiet {A} (a : A) : Quiet (mret a).
Proof. intros s. unfold frame. simpl. auto. Qed.
Global Instance throw_quiet {A} e : Quiet (@throw A e).
Proof. intros s. unfold frame. simpl. auto. Qed.
Global Instance bind_quiet {A B} (m : M A) (k : A -> M B) :
  Quiet m -> (forall a, Quiet (k a)) -> Quiet (m ≫= k).
Proof.
  intros Hm Hk s. specialize (Hm s). unfold mbind, M_bind.
  destruct (m s) as [s1 [a|e]]; simpl in *; [|exact Hm].
  specialize (Hk a s1). destruct Hm as (? & ? & ?), Hk as (? & ? & ?).
  repeat split; congruence.
Qed.

Section Prims.
Variable w : World.
Global Instance Date_now_quiet : Quiet (Date_now w).
Proof. unfold Date_now. solve_quiet. Qed.
Global Instance writeFileAsync_quiet p d : Quiet (writeFileAsync w p d).
Proof. unfold writeFileAsync. solve_quiet. Qed.
Global Instance generateThumbnail_quiet a b : Quiet (generateThumbnail w a b).
Proof. unfold generateThumbnail. solve_quiet. Qed.
Global Instance extractAudio_quiet a b : Quiet (extractAudio w a b).
Proof. unfold extractAudio. solve_quiet. Qed.
Global Instance transcribeAudio_quiet a : Quiet (transcribeAudio w a).
Proof. unfold transcribeAudio. solve_quiet. Qed.
Global Instance connectToDatabase_quiet : Quiet (connectToDatabase w).
Proof. unfold connectToDatabase. solve_quiet. Qed.
Global Instance readFileSync_base64_quiet p : Quiet (readFileSync_base64 p).
Proof. unfold readFileSync_base64. solve_quiet. Qed.
Global Instance new_ObjectId_quiet : Quiet new_ObjectId.
Proof. unfold new_ObjectId. solve_quiet. Qed.
Global Instance unlinkSync_quiet p : Quiet (unlinkSync w p).
Proof. unfold unlinkSync. solve_quiet. Qed.
Global Instance allocate_paths_quiet : Quiet (allocate_paths w).
Proof. unfold allocate_paths. apply _. Qed.
End Prims.

Lemma bind_step {A B} (m : M A) (k : A -> M B) s :
  (m ≫= k) s = match m s with (s', Ok a) => k a s' | (s', Throw e) => (s', Throw e) end.
Proof. reflexivity. Qed.

Lemma try_catch_rethrow {A} (m : M A) s : try_catch m throw s = m s.
Proof. unfold try_catch, throw. destruct (m s) as [? []]; reflexivity. Qed.

Ltac quiet_step :=
  rewrite bind_step;
  lazymatch goal with
  | |- context [match ?m ?st with _ => _ end] =>
      let F := fresh "F" in
      pose proof (quiet_frame (m:=m) st) as F;
      destruct (m st) as [?s [?a | ?e]] eqn:?; simpl in F; destruct F as (? & ? & ?); cbv beta
  end.

Definition persisted (f : Multer.File) (rec : Db.Recording) : Prop :=
  Db.filename rec = Multer.originalname f /\ Db.originalName rec = Multer.originalname f /\
  Db.mimeType rec = Multer.mimetype f /\ Db.size rec = Multer.size f /\
  Db.snapshot rec = None /\ exists t, Db.transcription rec = Some t.

Definition fs_error (e : exn) : Prop :=
  match e with ENOENT _ | UnlinkError _ => True | _ => False end.

Lemma unlinkSync_fs_error w p s s' e :
  unlinkSync w p s = (s', Throw e) -> fs_error e.
Proof.
  unfold unlinkSync. repeat case_match; intros; simplify_eq; simpl; auto.
Qed.

Ltac fail_branch :=
  left; split_and!; [congruence|congruence|congruence|eauto].

Lemma processVideo_cases w f s :
  let '(s', r) := processVideo w f s in
  (inserts s' = inserts s /\ releases s' = releases s /\ store s' = store s /\
   exists e, r = Throw e)
  \/ (inserts s' = S (inserts s) /\ releases s' = S (releases s) /\
      exists rec, store s' = (store s ++ [rec])%list /\ persisted f rec /\
      ((exists id, r = Ok (id, default "" (Db.transcription rec))) \/
       (exists e, r = Throw e /\ fs_error e))).
Proof.
  unfold processVideo. rewrite try_catch_rethrow.
  quiet_step; [|fail_branch].
  destruct a as [[p1 p2] p3]; cbv beta iota.
  do 8 (quiet_step; [|fail_branch]).
  rewrite bind_step. unfold insertOne at 1.
  destruct (db_up w); simpl; [|fail_branch].
  destruct (insert_ok w); simpl; [|fail_branch].
  destruct (existsb _ _); simpl; [fail_branch|].
  rewrite bind_step. unfold enter_cleanup at 1. cbv beta iota.
  match goal with |- context [(store s8 ++ [?r])%list] => set (rec := r) end.
  assert (Hrec : persisted f rec).
  { unfold persisted, rec; simpl; split_and!; eauto. }
  do 3 (quiet_step; [|right; simpl in *; split_and!; [congruence|congruence|];
        exists rec; split_and!; [congruence|exact Hrec|right; eexists; split; [reflexivity|];
        eapply unlinkSync_fs_error; eassumption]]).
  right; simpl in *; split_and!; [congruence|congruence|].
  exists rec; split_and!; [congruence|exact Hrec|left; eexists; reflexivity].
Qed.

(** ** Repository lemmas *)

Lemma connectToDatabase_store w s :
  store (fst (connectToDatabase w s)) = store s.
Proof. apply (quiet_frame s). Qed.

Lemma delete_first_absent oid l :
  Forall (fun r => Db._id r <> oid) l -> delete_first oid l = l.
Proof.
  induction 1 as [|r l Hr _ IH]; simpl; [done|].
  destruct (N.eqb_spec (Db._id r) oid); [done|]. by rewrite IH.
Qed.

Lemma delete_first_removes oid l :
  NoDup (map Db._id l) -> Forall (fun r => Db._id r <> oid) (delete_first oid l).
Proof.
  induction l as [|r l IH]; simpl; intros Hnd; [constructor|].
  apply NoDup_cons in Hnd as [Hnotin Hnd].
  destruct (N.eqb_spec (Db._id r) oid) as [<-|Hne].
  - apply Forall_forall. intros x Hx Heq. apply Hnotin.
    apply list_elem_of_In, in_map_iff. exists x. split; [done|]. by apply list_elem_of_In.
  - constructor; [done|]. by apply IH.
Qed.

Lemma find_id_absent oid l :
  Forall (fun r => Db._id r <> oid) l ->
  List.find (fun r => N.eqb (Db._id r) oid) l = None.
Proof.
  induction 1 as [|r l Hr _ IH]; simpl; [done|].
  by destruct (N.eqb_spec (Db._id r) oid).
Qed.

Lemma set_store_twice l s : set_store l (set_store l s) = set_store l s.
Proof. by destruct s. Qed.

Lemma connect_up w s : db_up w = true -> connectToDatabase w s = (set_cached s, Ok tt).
Proof. intros Hup. unfold connectToDatabase. destruct s as [? ? [] ? ? ? ?]; simpl; by rewrite ?Hup. Qed.

Lemma set_cached_cached s : cachedDb s = true -> set_cached s = s.
Proof. destruct s; simpl; intros ->; reflexivity. Qed.

Lemma deleteRecording_up w id oid s :
  db_up w = true -> ObjectId_of_string id = Some oid ->
  deleteRecording w id s = (set_store (delete_first oid (store s)) (set_cached s), Ok tt).
Proof.
  intros Hup Hid. unfold deleteRecording. rewrite bind_step, (connect_up w s Hup), Hid.
  unfold deleteOne, select_server. rewrite bind_step, Hup. reflexivity.
Qed.

Lemma getRecording_up w id oid s :
  db_up w = true -> ObjectId_of_string id = Some oid ->
  getRecording w id s =
  (set_cached s, Ok (List.find (fun r => N.eqb (Db._id r) oid) (store s))).
Proof.
  intros Hup Hid. unfold getRecording. rewrite bind_step, (connect_up w s Hup), Hid.
  unfold findOne, select_server. rewrite bind_step, Hup. reflexivity.
Qed.

(** Sorting: a list sorted by a total preorder that is a permutation of a
    list strictly sorted by the same key is that list. *)
Definition le_desc (a b : Db.Recording) : Prop := (Db.createdAt b <= Db.createdAt a)%N.
Definition lt_desc (a b : Db.Recording) : Prop := (Db.createdAt b < Db.createdAt a)%N.
Definition lt_asc (a b : Db.Recording) : Prop := (Db.createdAt a < Db.createdAt b)%N.

Lemma sorted_perm_unique (l1 l2 : list Db.Recording) :
  Permutation l1 l2 -> Sorted le_desc l1 -> StronglySorted lt_desc l2 -> l1 = l2.
Proof.
  intros Hp Hs1 Hs2.
  apply Sorted_StronglySorted in Hs1; [|intros ???; unfold le_desc; lia].
  revert l2 Hp Hs2. induction Hs1 as [|a l1 _ IH Ha]; intros l2 Hp Hs2.
  - by apply Permutation_nil in Hp.
  - destruct l2 as [|b l2]; [by apply Permutation_sym, Permutation_nil_cons in Hp|].
    apply StronglySorted_inv in Hs2 as [Hs2 Hb].
    rewrite List.Forall_forall in Ha, Hb.
    destruct (Permutation_in a Hp (in_eq a l1)) as [->|Hal2].
    + f_equal. apply IH; [by apply Permutation_cons_inv in Hp|done].
    + exfalso. specialize (Hb a Hal2).
      destruct (Permutation_in b (Permutation_sym Hp) (in_eq b l2)) as [->|Hbl1].
      * unfold lt_desc in Hb. lia.
      * specialize (Ha b Hbl1). unfold le_desc, lt_desc in *. lia.
Qed.

Lemma StronglySorted_snoc {A} (R : A -> A -> Prop) l a :
  StronglySorted R l -> List.Forall (fun x => R x a) l -> StronglySorted R (l ++ [a])%list.
Proof.
  induction 1 as [|x l _ IH Hx]; simpl; intros Hf.
  - repeat constructor.
  - inversion Hf; subst. constructor; [auto|].
    apply List.Forall_app; split; [done|]. by constructor.
Qed.

Lemma StronglySorted_rev (l : list Db.Recording) :
  StronglySorted lt_asc l -> StronglySorted lt_desc (rev l).
Proof.
  induction 1 as [|x l _ IH Hx]; simpl; [constructor|].
  apply StronglySorted_snoc; [done|].
  apply List.Forall_forall. intros y Hy. apply in_rev in Hy.
  rewrite List.Forall_forall in Hx. specialize (Hx y Hy). unfold lt_asc, lt_desc in *. lia.
Qed.

(** ** Concrete failure worlds *)

Definition t0 : N := 1700000000000%N.

(** ffmpeg cannot take the screenshot. *)
Definition no_frame_world : World := {|
  clock := clock (good_world t0); write_ok := true;
  ffmpeg_frame := fun _ => None; ffmpeg_audio := ffmpeg_audio (good_world t0);
  whisper := whisper (good_world t0); db_up := true; insert_ok := true;
  unlink_fault := fun _ => false
|}.

(** [unlinkSync] of the run's mp3 fails with an I/O error. *)
Definition unlink_fault_world : World := {|
  clock := clock (good_world t0); write_ok := true;
  ffmpeg_frame := ffmpeg_frame (good_world t0); ffmpeg_audio := ffmpeg_audio (good_world t0);
  whisper := whisper (good_world t0); db_up := true; insert_ok := true;
  unlink_fault := fun p => String.eqb p (audioPath_of (t0 + 2))
|}.

(** The database server is unreachable; everything else works. *)
Definition down_world : World := {|
  clock := clock (good_world t0); write_ok := true;
  ffmpeg_frame := ffmpeg_frame (good_world t0); ffmpeg_audio := ffmpeg_audio (good_world t0);
  whisper := whisper (good_world t0); db_up := false; insert_ok := true;
  unlink_fault := fun _ => false
|}.

(** Every [Date.now()] reading falls in the same millisecond. *)
Definition same_ms_world : World := {|
  clock := fun _ => t0; write_ok := true;
  ffmpeg_frame := ffmpeg_frame (good_world t0); ffmpeg_audio := ffmpeg_audio (good_world t0);
  whisper := whisper (good_world t0); db_up := true; insert_ok := true;
  unlink_fault := fun _ => false
|}.

Definition rec_at (oid t : N) : Db.Recording := {|
  Db._id := oid; Db.filename := "a.mp4"; Db.originalName := "a.mp4";
  Db.mimeType := "video/mp4"; Db.size := 4; Db.snapshot := None;
  Db.transcription := Some "hi"; Db.createdAt := t
|}.

Definition st_with (l : list Db.Recording) : St := {|
  files := ∅; store := l; cachedDb := true; next_oid := 10%N;
  reads := 0; inserts := 0; releases := 0
|}.

(** A file of an earlier upload beside the run's files. *)
Definition other_upload : string := path_join uploadsDir "recording-1.webm".

Definition st_other : St := set_files {[other_upload := video_bytes]} empty_st.

(** The uploads directory holding a temporary video left by a failed run. *)
Definition old_temp : string := path_join uploadsDir "temp-1700000000000.mp4".

Definition sweep_fs : gmap string (list Byte.byte) := {[old_temp := video_bytes]}.

(** ** Claims *)

(** C1 (code_bug). Cleanup is not run on failure paths: when ffmpeg fails
    to take the screenshot, [processVideo] rethrows from its [catch] block
    without entering the cleanup block, and the source video written to
    the uploads directory is left behind. *)
Theorem C1_failed_run_leaves_temp_video :
  let '(s', r) := processVideo no_frame_world hello_mp4 empty_st in
  r = Throw FfmpegError /\ releases s' = 0 /\
  map_to_list (files s') = [(tempVideoPath_of t0, video_bytes)].
Proof. vm_compute. split_and!; reflexivity. Qed.

(** C2 (code_bug). The thumbnail is read as base64 but never stored: in a
    successful run where the screenshot exists, the persisted Recording
    has no [snapshot]. *)
Theorem C2_snapshot_not_persisted :
  let '(s', r) := processVideo (good_world t0) hello_mp4 empty_st in
  r = Ok ("000000000000000000000001", "hello world") /\
  base64 frame_bytes = "/9j/4A==" /\
  map Db.snapshot (store s') = [None].
Proof. vm_compute. split_and!; reflexivity. Qed.

(** C3 (code_bug).  A failed deletion of a temporary file masks the run's
    result: the Recording, with its transcription, is already stored, yet
    the run throws the file-system error, so a run that ends in an error
    has performed one insert. *)
Theorem C3_error_after_insert :
  let '(s', r) := processVideo unlink_fault_world hello_mp4 empty_st in
  r = Throw (UnlinkError (audioPath_of (t0 + 2))) /\ inserts s' = 1 /\
  map Db.transcription (store s') = [Some "hello world"].
Proof. vm_compute. split_and!; reflexivity. Qed.

(** C4. An upload whose mimetype is outside the six allowed types, or
    whose size exceeds the configured limit (100 MiB by default), is
    rejected by multer with a validation error before [processVideo]
    runs: the state (uploads directory and collection) is unchanged. *)
Theorem C4_invalid_upload_rejected w cfg f s :
  (Multer.mimetype f ∉ allowedTypes \/ (fileSizeLimit cfg < Multer.size f)%N) ->
  fileSizeLimit None = 104857600%N /\
  exists e, multer_single cfg f = inl e /\
    upload_route w cfg (Some f) s = (s, Ok (Respond 500 (multer_error_message e))).
Proof.
  intros Hbad. split; [reflexivity|].
  unfold upload_route, multer_single.
  destruct (bool_decide_reflect (Multer.mimetype f ∈ allowedTypes)) as [Hin|Hnin]; simpl.
  - destruct Hbad as [Hbad|Hbig]; [done|].
    apply N.ltb_lt in Hbig. rewrite Hbig. eexists; split; reflexivity.
  - eexists; split; reflexivity.
Qed.

Lemma C4_witness :
  ("application/pdf" ∉ allowedTypes \/ (fileSizeLimit None < 4)%N) /\
  fileSizeLimit None = 104857600%N /\
  exists e, multer_single None {| Multer.originalname := "a.pdf";
      Multer.mimetype := "application/pdf"; Multer.size := 4;
      Multer.buffer := video_bytes |} = inl e /\
    upload_route (good_world t0) None (Some {| Multer.originalname := "a.pdf";
      Multer.mimetype := "application/pdf"; Multer.size := 4;
      Multer.buffer := video_bytes |}) empty_st = (empty_st, Ok (Respond 500 (multer_error_message e))).
Proof.
  assert (H : "application/pdf" ∉ allowedTypes \/ (fileSizeLimit None < 4)%N)
    by (left; apply (bool_decide_unpack _); vm_compute; reflexivity).
  split; [exact H|].
  exact (C4_invalid_upload_rejected (good_world t0) None
    {| Multer.originalname := "a.pdf"; Multer.mimetype := "application/pdf";
       Multer.size := 4; Multer.buffer := video_bytes |} empty_st H).
Defined.

(** C5 (code_bug). The temporary paths are named after [Date.now()]: two
    runs whose path allocations fall in the same millisecond (run B's
    request handler starting right after run A's, before A's first
    [await]) receive the same three paths. *)
Theorem C5_same_ms_runs_share_paths :
  let '(sA, pA) := allocate_paths same_ms_world empty_st in
  let '(_, pB) := allocate_paths same_ms_world sA in
  pA = Ok (tempVideoPath_of t0, thumbnailPath_of t0, audioPath_of t0) /\ pA = pB.
Proof. vm_compute. split; reflexivity. Qed.

(** C6 counterexample. A malformed identifier makes [getRecording] throw
    (the BSON error of [new ObjectId(id)]) instead of returning absent. *)
Lemma C6_malformed_id_throws :
  snd (getRecording (good_world t0) "abc" (st_with [])) = Throw BSONError.
Proof. reflexivity. Qed.

(** C6 (amended). [getRecording] leaves the collection unchanged and
    either fails to connect, or throws [BSONError] on an identifier that
    is not 24 hexadecimal digits, or returns the result of an exact-match
    lookup on [_id]: a stored record with that [_id], or absent when no
    stored record has it. *)
Theorem C6_getRecording_outcomes w id s :
  let '(s', r) := getRecording w id s in
  store s' = store s /\
  (r = Throw MongoConnectError \/
   (ObjectId_of_string id = None /\ r = Throw BSONError) \/
   (exists oid o, ObjectId_of_string id = Some oid /\ r = Ok o /\
      match o with
      | Some rec => Db._id rec = oid /\ List.In rec (store s)
      | None => Forall (fun x => Db._id x <> oid) (store s)
      end)).
Proof.
  unfold getRecording. rewrite bind_step.
  pose proof (quiet_frame (m:=connectToDatabase w) s) as (_ & _ & Hst).
  destruct (connectToDatabase w s) as [s1 [u|e]] eqn:Hc; simpl in Hst.
  - destruct (ObjectId_of_string id) as [oid|] eqn:Hid; simpl.
    + unfold findOne. rewrite bind_step. unfold select_server.
      destruct (db_up w); simpl; [|split; [done|]; by left].
      split; [done|]. right; right. exists oid, (List.find (fun r => N.eqb (Db._id r) oid) (store s1)).
      split_and!; [done|done|]. rewrite Hst.
      destruct (List.find _ (store s)) as [rec|] eqn:Hf.
      * apply find_some in Hf as [Hin Heq]. apply N.eqb_eq in Heq. done.
      * apply List.Forall_forall. intros x Hx Heq.
        pose proof (find_none _ _ Hf x Hx) as Hn. simpl in Hn.
        apply N.eqb_neq in Hn. done.
    + split; [done|]. right; left. done.
  - split; [done|]. left.
    unfold connectToDatabase in Hc. repeat case_match; simplify_eq; done.
Qed.

(** C7 counterexample. Deleting under a malformed identifier throws. *)
Lemma C7_delete_malformed_throws :
  snd (deleteRecording (good_world t0) "abc" (st_with [])) = Throw BSONError.
Proof. reflexivity. Qed.

(** C7 (amended).  With the database server reachable and unique [_id]s,
    [deleteRecording] is idempotent on a well-formed identifier (24
    hexadecimal digits): the first call succeeds, and changes nothing when
    no record has the identifier; a second call succeeds without changing
    the state; [getRecording] answers absent after both.  A malformed
    identifier makes every call throw [BSONError], whatever the state,
    with the collection unchanged. *)
Theorem C7_delete_idempotent w id s :
  db_up w = true ->
  NoDup (map Db._id (store s)) ->
  match ObjectId_of_string id with
  | Some oid =>
      let '(s1, r1) := deleteRecording w id s in
      r1 = Ok tt /\
      (Forall (fun x => Db._id x <> oid) (store s) -> store s1 = store s) /\
      deleteRecording w id s1 = (s1, Ok tt) /\
      getRecording w id s1 = (s1, Ok None)
  | None =>
      forall s0, snd (deleteRecording w id s0) = Throw BSONError /\
                 store (fst (deleteRecording w id s0)) = store s0
  end.
Proof.
  intros Hup Hnd. destruct (ObjectId_of_string id) as [oid|] eqn:Hid.
  - rewrite (deleteRecording_up w id oid s Hup Hid).
    pose proof (delete_first_removes oid (store s) Hnd) as Habs.
    split_and!; [done| | |].
    + intros Hn. simpl. by apply delete_first_absent.
    + rewrite (deleteRecording_up w id oid _ Hup Hid). simpl.
      rewrite (delete_first_absent _ _ Habs). by destruct s.
    + rewrite (getRecording_up w id oid _ Hup Hid). simpl.
      rewrite (find_id_absent _ _ Habs). by destruct s.
  - intros s0. unfold deleteRecording. rewrite bind_step, (connect_up w s0 Hup), Hid.
    split; reflexivity.
Qed.

Lemma C7_witness :
  db_up (good_world t0) = true /\
  NoDup (map Db._id (store (st_with [rec_at 255 t0]))) /\
  match ObjectId_of_string "0000000000000000000000ff" with
  | Some oid =>
      let '(s1, r1) := deleteRecording (good_world t0) "0000000000000000000000ff"
                         (st_with [rec_at 255 t0]) in
      r1 = Ok tt /\
      (Forall (fun x => Db._id x <> oid) (store (st_with [rec_at 255 t0])) ->
       store s1 = store (st_with [rec_at 255 t0])) /\
      deleteRecording (good_world t0) "0000000000000000000000ff" s1 = (s1, Ok tt) /\
      getRecording (good_world t0) "0000000000000000000000ff" s1 = (s1, Ok None)
  | None =>
      forall s0, snd (deleteRecording (good_world t0) "0000000000000000000000ff" s0) = Throw BSONError /\
                 store (fst (deleteRecording (good_world t0) "0000000000000000000000ff" s0)) = store s0
  end.
Proof.
  assert (H1 : db_up (good_world t0) = true) by reflexivity.
  assert (H2 : NoDup (map Db._id (store (st_with [rec_at 255 t0]))))
    by (simpl; constructor; [apply not_elem_of_nil|constructor]).
  split_and!; [exact H1|exact H2|].
  exact (C7_delete_idempotent (good_world t0) "0000000000000000000000ff"
           (st_with [rec_at 255 t0]) H1 H2).
Defined.

(** C8 counterexample. Two records with the same [createdAt]: the sort
    [{createdAt: -1}] admits both orders, so the answer neither breaks ties
    by insertion order nor is the reverse insertion order although the
    timestamps are (non-strictly) monotonic. *)
Lemma C8_equal_timestamps_either_order :
  getRecordings (good_world t0) [rec_at 1 t0; rec_at 2 t0]
    (st_with [rec_at 1 t0; rec_at 2 t0]) (st_with [rec_at 1 t0; rec_at 2 t0])
    (Ok [rec_at 1 t0; rec_at 2 t0]) /\
  getRecordings (good_world t0) [rec_at 2 t0; rec_at 1 t0]
    (st_with [rec_at 1 t0; rec_at 2 t0]) (st_with [rec_at 1 t0; rec_at 2 t0])
    (Ok [rec_at 2 t0; rec_at 1 t0]) /\
  [rec_at 1 t0; rec_at 2 t0] <> rev [rec_at 1 t0; rec_at 2 t0].
Proof.
  unfold getRecordings, sort_createdAt_desc. simpl. split_and!; try reflexivity.
  - repeat constructor; simpl; lia.
  - apply perm_swap.
  - repeat constructor; simpl; lia.
  - discriminate.
Qed.

(** C8 (amended). [getRecordings] returns all stored records ordered by
    [createdAt] descending (order among equal [createdAt] unspecified);
    when the stored records have strictly increasing [createdAt] in
    insertion order, the answer is exactly the reverse insertion order. *)
Theorem C8_listAll_order w res s s' :
  getRecordings w res s s' (Ok res) ->
  store s' = store s /\ Permutation (store s) res /\ Sorted le_desc res /\
  (StronglySorted lt_asc (store s) -> res = rev (store s)).
Proof.
  unfold getRecordings.
  pose proof (connectToDatabase_store w s) as Hst.
  destruct (connectToDatabase w s) as [s1 [u|e]]; simpl in Hst; [|intros [_ ?]; done].
  destruct (db_up w); [|intros [_ ?]; done].
  intros (-> & _ & Hp & Hs). rewrite Hst in Hp.
  split_and!; [done|done|exact Hs|].
  intros Hinc. apply sorted_perm_unique; [|exact Hs|by apply StronglySorted_rev].
  etrans; [apply Permutation_sym, Hp|apply Permutation_rev].
Qed.

Lemma C8_witness :
  getRecordings (good_world t0) [rec_at 2 (t0 + 1); rec_at 1 t0]
    (st_with [rec_at 1 t0; rec_at 2 (t0 + 1)]) (st_with [rec_at 1 t0; rec_at 2 (t0 + 1)])
    (Ok [rec_at 2 (t0 + 1); rec_at 1 t0]) /\
  let s := st_with [rec_at 1 t0; rec_at 2 (t0 + 1)] in
  store s = store s /\ Permutation (store s) [rec_at 2 (t0 + 1); rec_at 1 t0] /\
  Sorted le_desc [rec_at 2 (t0 + 1); rec_at 1 t0] /\
  (StronglySorted lt_asc (store s) -> [rec_at 2 (t0 + 1); rec_at 1 t0] = rev (store s)).
Proof.
  assert (H : getRecordings (good_world t0) [rec_at 2 (t0 + 1); rec_at 1 t0]
    (st_with [rec_at 1 t0; rec_at 2 (t0 + 1)]) (st_with [rec_at 1 t0; rec_at 2 (t0 + 1)])
    (Ok [rec_at 2 (t0 + 1); rec_at 1 t0])).
  { unfold getRecordings, sort_createdAt_desc. simpl. split_and!; try reflexivity.
    - apply perm_swap.
    - repeat constructor; simpl; lia. }
  split; [exact H|].
  exact (C8_listAll_order (good_world t0) _ _ _ H).
Defined.

(** C9. Every Recording persisted by [processVideo] has [filename] and
    [originalName] both equal to the upload's [originalname]. *)
Theorem C9_filename_is_originalName w f s :
  let '(s', _) := processVideo w f s in
  exists ext, store s' = (store s ++ ext)%list /\ length ext <= 1 /\
    Forall (fun r => Db.filename r = Multer.originalname f /\
                     Db.originalName r = Multer.originalname f) ext.
Proof.
  pose proof (processVideo_cases w f s) as H.
  destruct (processVideo w f s) as [s' r].
  destruct H as [(_ & _ & Hs & _)|(_ & _ & rec & Hs & (Hfn & Hon & _) & _)].
  - exists []. rewrite app_nil_r. split_and!; [done|simpl; lia|constructor].
  - exists [rec]. split_and!; [done|simpl; lia|]. by repeat constructor.
Qed.

(** C10. Every Recording persisted by [processVideo] carries a
    transcription. *)
Theorem C10_transcription_present w f s :
  let '(s', _) := processVideo w f s in
  exists ext, store s' = (store s ++ ext)%list /\ length ext <= 1 /\
    Forall (fun r => exists t, Db.transcription r = Some t) ext.
Proof.
  pose proof (processVideo_cases w f s) as H.
  destruct (processVideo w f s) as [s' r].
  destruct H as [(_ & _ & Hs & _)|(_ & _ & rec & Hs & (_ & _ & _ & _ & _ & Ht) & _)].
  - exists []. rewrite app_nil_r. split_and!; [done|simpl; lia|constructor].
  - exists [rec]. split_and!; [done|simpl; lia|]. by repeat constructor.
Qed.

(** ** Further properties of the service *)

Lemma hex_val_digit d : (d < 16)%N -> hex_val (hex_digit d) = Some d.
Proof.
  intros Hd. rewrite <- (N2Nat.id d). assert (Hn : (N.to_nat d < 16)%nat) by lia.
  generalize (N.to_nat d) Hn. clear d Hd Hn. intros n Hn.
  do 16 (destruct n as [|n]; [reflexivity|]). lia.
Qed.

Lemma hex_go_length k n acc : String.length (hex_go k n acc) = (k + String.length acc)%nat.
Proof.
  revert n acc. induction k as [|k IH]; intros n acc; simpl; [done|].
  rewrite IH. simpl. lia.
Qed.

Lemma parse_hex_go k n acc a :
  parse_hex (hex_go k n acc) a = parse_hex acc (a * 16 ^ N.of_nat k + n mod 16 ^ N.of_nat k)%N.
Proof.
  revert n acc a. induction k as [|k IH]; intros n acc a; simpl.
  - f_equal. rewrite N.mod_1_r. lia.
  - rewrite IH. simpl. rewrite hex_val_digit by (apply N.mod_lt; lia). simpl.
    f_equal. rewrite Nat2N.inj_succ, N.pow_succ_r'.
    rewrite N.Div0.mod_mul_r.
    ring.
Qed.

Lemma oid_roundtrip oid :
  (oid < 2 ^ 96)%N ->
  String.length (oid_toHexString oid) = 24%nat /\
  ObjectId_of_string (oid_toHexString oid) = Some oid.
Proof.
  intros Hlt. unfold ObjectId_of_string, oid_toHexString.
  rewrite hex_go_length. split; [reflexivity|].
  rewrite parse_hex_go.
  replace (16 ^ N.of_nat 24)%N with (2 ^ 96)%N by reflexivity.
  rewrite N.mod_small by exact Hlt. rewrite N.mul_0_l, N.add_0_l. reflexivity.
Qed.

Lemma route_allows_multer_types t :
  t ∈ allowedTypes -> t ∈ route_allowedTypes.
Proof.
  unfold allowedTypes, route_allowedTypes. rewrite !elem_of_cons.
  intros H. repeat destruct H as [->|H]; [tauto..|by apply not_elem_of_nil in H].
Qed.

Lemma multer_single_inr cfg f f' : multer_single cfg f = inr f' -> f' = f.
Proof. unfold multer_single. repeat case_match; congruence. Qed.

(** X1. The id string handed to clients ([insertedId.toString()]) has 24
    characters and [new ObjectId] parses it back to the same ObjectId. *)
Theorem X1_oid_string_roundtrip oid :
  (oid < 2 ^ 96)%N ->
  String.length (oid_toHexString oid) = 24%nat /\
  ObjectId_of_string (oid_toHexString oid) = Some oid.
Proof. apply oid_roundtrip. Qed.

Lemma X1_witness :
  (255 < 2 ^ 96)%N /\ String.length (oid_toHexString 255) = 24%nat /\
  ObjectId_of_string (oid_toHexString 255) = Some 255%N.
Proof.
  assert (H : (255 < 2 ^ 96)%N) by (vm_compute; reflexivity).
  split; [exact H|]. exact (X1_oid_string_roundtrip 255 H).
Defined.

(** X5. The upload route's own mimetype check never fires: every file it
    sees was accepted by multer, whose allow-list has the same six types,
    so no request is answered 400 "Invalid file type". *)
Theorem X5_route_type_check_unreachable w cfg f s :
  snd (upload_route w cfg (Some f) s) <>
  Ok (Respond 400 "Invalid file type. Only video files are allowed.").
Proof.
  unfold upload_route.
  destruct (multer_single cfg f) as [e|f'] eqn:Hm; simpl; [congruence|].
  pose proof (multer_single_inr _ _ _ Hm) as ->.
  assert (Hin : Multer.mimetype f ∈ allowedTypes).
  { unfold multer_single in Hm. destruct (bool_decide_reflect (Multer.mimetype f ∈ allowedTypes)); [done|discriminate]. }
  rewrite bool_decide_true by (by apply route_allows_multer_types). simpl.
  unfold try_catch, mbind, M_bind.
  destruct (processVideo w f s) as [s' [[id t]|e]]; simpl; congruence.
Qed.

(** X6. For an upload multer accepts, the route's final state is the
    state [processVideo] leaves, and it answers 201 exactly when
    [processVideo] succeeds and 500 when it throws. *)
Theorem X6_route_status_follows_run w cfg f s :
  Multer.mimetype f ∈ allowedTypes -> (Multer.size f <= fileSizeLimit cfg)%N ->
  let '(s', r) := processVideo w f s in
  exists body, upload_route w cfg (Some f) s =
    (s', Ok (Respond (match r with Ok _ => 201 | Throw _ => 500 end)%N body)).
Proof.
  intros Hin Hle. unfold upload_route, multer_single.
  rewrite bool_decide_true by done. simpl.
  destruct (N.ltb_spec (fileSizeLimit cfg) (Multer.size f)); [lia|].
  rewrite bool_decide_true by (by apply route_allows_multer_types). simpl.
  unfold try_catch, mbind, M_bind.
  destruct (processVideo w f s) as [s' [[id t]|e]]; simpl; eexists; reflexivity.
Qed.

Lemma X6_witness :
  "video/mp4" ∈ allowedTypes /\ (4 <= fileSizeLimit None)%N /\
  let '(s', r) := processVideo (good_world t0) hello_mp4 empty_st in
  exists body, upload_route (good_world t0) None (Some hello_mp4) empty_st =
    (s', Ok (Respond (match r with Ok _ => 201 | Throw _ => 500 end)%N body)).
Proof.
  assert (H1 : "video/mp4" ∈ allowedTypes) by (apply (bool_decide_unpack _); reflexivity).
  assert (H2 : (4 <= fileSizeLimit None)%N) by (vm_compute; discriminate).
  split_and!; [exact H1|exact H2|].
  exact (X6_route_status_follows_run (good_world t0) None hello_mp4 empty_st H1 H2).
Defined.

Lemma includes_prefix s sub : String.prefix sub s = true -> includes s sub = true.
Proof. destruct s; simpl; intros ->; done. Qed.

(** X9. Whatever mime type the browser's MediaRecorder reports, the web
    client uploads its recording with type [video/mp4] or [video/webm];
    the server's multer accepts every such upload that is within the size
    limit, and the stored name ends in [.mp4] or [.webm]. *)
Theorem X9_client_uploads_accepted cfg recorder_mimeType now chunks :
  (N.of_nat (length chunks) <= fileSizeLimit cfg)%N ->
  let f := client_upload recorder_mimeType now chunks in
  Multer.mimetype f ∈ ["video/mp4"; "video/webm"] /\
  multer_single cfg f = inr f /\
  (upload_extension (upload_mimeType recorder_mimeType) = ".mp4" \/
   upload_extension (upload_mimeType recorder_mimeType) = ".webm").
Proof.
  intros Hle. cbv zeta.
  remember (client_upload recorder_mimeType now chunks) as f eqn:Hf.
  assert (Hsz : Multer.size f = N.of_nat (length chunks)) by (subst f; reflexivity).
  assert (Ht : Multer.mimetype f ∈ ["video/mp4"; "video/webm"]).
  { subst f. unfold client_upload, upload_blob_type. simpl.
    repeat case_match; rewrite !elem_of_cons; tauto. }
  split_and!; [exact Ht| |].
  - assert (Hin : Multer.mimetype f ∈ allowedTypes).
    { rewrite !elem_of_cons in Ht. unfold allowedTypes. rewrite !elem_of_cons.
      destruct Ht as [->|[->|Ht]]; [by left|by right; left|by apply not_elem_of_nil in Ht]. }
    unfold multer_single. rewrite (bool_decide_true _ Hin). simpl.
    destruct (N.ltb_spec (fileSizeLimit cfg) (Multer.size f)) as [Hgt|]; [|done].
    lia.
  - unfold upload_extension. case_match; tauto.
Qed.

Lemma X9_witness :
  (N.of_nat (length video_bytes) <= fileSizeLimit None)%N /\
  let f := client_upload (Some "video/webm;codecs=vp8,opus") t0 video_bytes in
  Multer.mimetype f ∈ ["video/mp4"; "video/webm"] /\
  multer_single None f = inr f /\
  (upload_extension (upload_mimeType (Some "video/webm;codecs=vp8,opus")) = ".mp4" \/
   upload_extension (upload_mimeType (Some "video/webm;codecs=vp8,opus")) = ".webm").
Proof.
  assert (H : (N.of_nat (length video_bytes) <= fileSizeLimit None)%N)
    by (vm_compute; discriminate).
  split; [exact H|].
  exact (X9_client_uploads_accepted None (Some "video/webm;codecs=vp8,opus") t0 video_bytes H).
Defined.

(** ** Success path of [processVideo] *)

(** [m] keeps the ObjectId counter and never drops the cached handle. *)
Class Mono {A} (m : M A) : Prop :=
  mono_frame : forall s, next_oid (fst (m s)) = next_oid s /\
                         (cachedDb s = true -> cachedDb (fst (m s)) = true).

Ltac solve_mono := intros ?; cbv beta; repeat case_match; simpl; split; auto; intros; congruence.

Section MonoPrims.
Variable w : World.
Global Instance Date_now_mono : Mono (Date_now w).
Proof. unfold Date_now. solve_mono. Qed.
Global Instance writeFileAsync_mono p d : Mono (writeFileAsync w p d).
Proof. unfold writeFileAsync. solve_mono. Qed.
Global Instance generateThumbnail_mono a b : Mono (generateThumbnail w a b).
Proof. unfold generateThumbnail. solve_mono. Qed.
Global Instance extractAudio_mono a b : Mono (extractAudio w a b).
Proof. unfold extractAudio. solve_mono. Qed.
Global Instance transcribeAudio_mono a : Mono (transcribeAudio w a).
Proof. unfold transcribeAudio. solve_mono. Qed.
Global Instance connectToDatabase_mono : Mono (connectToDatabase w).
Proof. unfold connectToDatabase. solve_mono. Qed.
Global Instance readFileSync_base64_mono p : Mono (readFileSync_base64 p).
Proof. unfold readFileSync_base64. solve_mono. Qed.
Global Instance unlinkSync_mono p : Mono (unlinkSync w p).
Proof. unfold unlinkSync. solve_mono. Qed.
End MonoPrims.

Lemma connectToDatabase_ok_cached w s s' u :
  connectToDatabase w s = (s', Ok u) -> cachedDb s' = true.
Proof. unfold connectToDatabase. repeat case_match; intros; simplify_eq; done. Qed.

Lemma unlinkSync_ok w p s s' u :
  unlinkSync w p s = (s', Ok u) -> files s' = delete p (files s).
Proof. unfold unlinkSync. repeat case_match; intros; simplify_eq; done. Qed.

Lemma allocate_paths_eq w s :
  allocate_paths w s =
  (bump_reads (bump_reads (bump_reads s)),
   Ok (tempVideoPath_of (clock w (reads s)), thumbnailPath_of (clock w (S (reads s))),
       audioPath_of (clock w (S (S (reads s)))))).
Proof. reflexivity. Qed.

Lemma append_cancel_l (a b c : string) : a +:+ b = a +:+ c -> b = c.
Proof. induction a as [|x a IH]; simpl; [done|]. intros H. injection H. exact IH. Qed.

Lemma run_paths_distinct t1 t2 t3 :
  tempVideoPath_of t1 <> thumbnailPath_of t2 /\
  tempVideoPath_of t1 <> audioPath_of t3 /\
  thumbnailPath_of t2 <> audioPath_of t3.
Proof.
  unfold tempVideoPath_of, thumbnailPath_of, audioPath_of, path_join.
  split_and!; intros H; apply append_cancel_l in H; discriminate H.
Qed.

Lemma existsb_false_forall (oid : N) (l : list Db.Recording) :
  existsb (fun x => N.eqb (Db._id x) oid) l = false -> Forall (fun x => Db._id x <> oid) l.
Proof.
  induction l as [|x l IH]; simpl; intros H; [constructor|].
  apply orb_false_iff in H as [H1 H2]. constructor; [|auto].
  by apply N.eqb_neq.
Qed.

Ltac ok_step :=
  rewrite bind_step;
  lazymatch goal with
  | |- context [match ?m ?st with _ => _ end] =>
      let F := fresh "F" in let G := fresh "G" in
      pose proof (quiet_frame (m:=m) st) as F;
      pose proof (mono_frame (m:=m) st) as G;
      destruct (m st) as [?s [?a | ?e]] eqn:?; simpl in F, G;
      destruct F as (? & ? & ?); destruct G as (? & ?); [cbv beta|exact I]
  end.

Definition ok_outcome (f : Multer.File) (s s' : St) (id t : string) (p1 p2 p3 : string) : Prop :=
  exists rec,
    store s' = (store s ++ [rec])%list /\ persisted f rec /\
    Db.transcription rec = Some t /\
    Forall (fun x => Db._id x <> Db._id rec) (store s) /\
    Db._id rec = next_oid s /\ id = oid_toHexString (Db._id rec) /\
    cachedDb s' = true /\
    files s' !! p1 = None /\ files s' !! p2 = None /\ files s' !! p3 = None.

Lemma processVideo_ok w f s :
  match processVideo w f s with
  | (s', Ok (id, t)) =>
      db_up w = true /\
      ok_outcome f s s' id t (tempVideoPath_of (clock w (reads s)))
        (thumbnailPath_of (clock w (S (reads s)))) (audioPath_of (clock w (S (S (reads s)))))
  | _ => True
  end.
Proof.
  destruct (run_paths_distinct (clock w (reads s)) (clock w (S (reads s)))
              (clock w (S (S (reads s))))) as (D12 & D13 & D23).
  unfold processVideo. rewrite try_catch_rethrow, bind_step, allocate_paths_eq. cbv beta iota.
  do 5 ok_step.
  match goal with H : connectToDatabase w _ = _ |- _ => apply connectToDatabase_ok_cached in H end.
  ok_step.
  rewrite bind_step. unfold new_ObjectId at 1. cbv beta iota.
  ok_step.
  rewrite bind_step. unfold insertOne at 1.
  destruct (db_up w) eqn:Hup; simpl; [|exact I].
  destruct (insert_ok w); simpl; [|exact I].
  destruct (existsb _ _) eqn:Hex; simpl; [exact I|].
  rewrite bind_step. unfold enter_cleanup at 1. cbv beta iota.
  do 3 ok_step.
  match goal with
  | H1 : unlinkSync w _ _ = (?u1, Ok _), H2 : unlinkSync w _ ?u1 = (?u2, Ok _),
    H3 : unlinkSync w _ ?u2 = (_, Ok _) |- _ =>
      apply unlinkSync_ok in H1; apply unlinkSync_ok in H2; apply unlinkSync_ok in H3
  end.
  apply existsb_false_forall in Hex.
  cbv [mret M_ret]. cbv beta iota. split; [reflexivity|]. unfold ok_outcome.
  cbn [store inserts releases next_oid cachedDb files reads bump_releases bump_inserts
       set_store bump_oid bump_reads set_files set_cached] in *.
  match goal with H : store _ = (store _ ++ [?r])%list |- _ => exists r end.
  simpl. split_and!.
  all: try congruence.
  - unfold persisted. simpl. split_and!; try reflexivity; eauto.
  - eauto 20.
  - rewrite Heqp8, lookup_delete_ne by congruence.
    rewrite Heqp7, lookup_delete_ne by congruence.
    rewrite Heqp6. apply lookup_delete_eq.
  - rewrite Heqp8. apply lookup_delete_eq.
  - rewrite Heqp8, lookup_delete_ne by congruence.
    rewrite Heqp7. apply lookup_delete_eq.
Qed.

(** ** Identifier uniqueness in the collection *)

Definition ids_unique (s : St) : Prop := NoDup (map Db._id (store s)).

Class KeepsUnique {A} (m : M A) : Prop :=
  keeps_unique : forall s, ids_unique s -> ids_unique (fst (m s)).

Global Instance quiet_keeps_unique {A} (m : M A) : Quiet m -> KeepsUnique m | 10.
Proof. intros Hq s Hs. unfold ids_unique. destruct (Hq s) as (_ & _ & ->). exact Hs. Qed.

Global Instance bind_keeps_unique {A B} (m : M A) (k : A -> M B) :
  KeepsUnique m -> (forall a, KeepsUnique (k a)) -> KeepsUnique (m ≫= k).
Proof.
  intros Hm Hk s Hs. specialize (Hm s Hs). unfold mbind, M_bind.
  destruct (m s) as [s1 [a|e]]; simpl in *; [|exact Hm]. by apply Hk.
Qed.

Global Instance enter_cleanup_keeps_unique : KeepsUnique enter_cleanup.
Proof. intros s Hs. exact Hs. Qed.

Global Instance insertOne_keeps_unique w r : KeepsUnique (insertOne w r).
Proof.
  intros s Hs. unfold insertOne. destruct (db_up w), (insert_ok w); simpl; try exact Hs.
  destruct (existsb _ _) eqn:Hex; simpl; [exact Hs|].
  apply existsb_false_forall in Hex. unfold ids_unique in *. simpl.
  rewrite map_app. apply NoDup_app. split_and!; [exact Hs| |apply NoDup_singleton].
  intros x Hx Hx'. simpl in Hx'. apply list_elem_of_singleton in Hx' as ->.
  apply list_elem_of_In, in_map_iff in Hx as (y & Hy & Hin).
  rewrite Forall_forall in Hex. apply (Hex y); [by apply list_elem_of_In|exact Hy].
Qed.

Lemma delete_first_subset oid l x : In x (delete_first oid l) -> In x l.
Proof.
  induction l as [|r l IH]; simpl; [done|].
  destruct (N.eqb _ _); simpl; [tauto|]. intros [->|H]; [by left|right; auto].
Qed.

Lemma delete_first_nodup oid l :
  NoDup (map Db._id l) -> NoDup (map Db._id (delete_first oid l)).
Proof.
  induction l as [|r l IH]; simpl; intros Hnd; [done|].
  apply NoDup_cons in Hnd as [Hn Hnd].
  destruct (N.eqb _ _); [exact Hnd|]. simpl. apply NoDup_cons. split; [|auto].
  intros Hin. apply Hn.
  apply list_elem_of_In, in_map_iff in Hin as (y & <- & Hy).
  apply list_elem_of_In, in_map_iff. exists y. split; [done|].
  by eapply delete_first_subset.
Qed.

Lemma processVideo_keeps_unique w f : KeepsUnique (processVideo w f).
Proof.
  intros s. unfold processVideo. rewrite try_catch_rethrow. revert s.
  apply bind_keeps_unique; [apply _|]. intros [[p1 p2] p3]. cbv beta iota. apply _.
Qed.

Lemma deleteRecording_keeps_unique w id : KeepsUnique (deleteRecording w id).
Proof.
  apply bind_keeps_unique; [apply _|]. intros _.
  destruct (ObjectId_of_string id); [|apply _].
  intros s Hs. unfold deleteOne, select_server, mbind, M_bind.
  destruct (db_up w); simpl; [exact (delete_first_nodup _ _ Hs)|exact Hs].
Qed.

Lemma delete_first_split oid l :
  delete_first oid l = l \/
  exists l1 x l2, l = (l1 ++ x :: l2)%list /\ delete_first oid l = (l1 ++ l2)%list /\
    Db._id x = oid /\ Forall (fun y => Db._id y <> oid) l1.
Proof.
  induction l as [|r l IH]; simpl; [by left|].
  destruct (N.eqb_spec (Db._id r) oid) as [Heq|Hne].
  - right. exists [], r, l. split_and!; try done; by constructor.
  - destruct IH as [->|(l1 & x & l2 & -> & -> & Hx & Hl1)]; [by left|].
    right. exists (r :: l1), x, l2. split_and!; try done; by constructor.
Qed.

Lemma find_app_absent (oid : N) (l : list Db.Recording) (r : Db.Recording) :
  Forall (fun x => Db._id x <> oid) l -> Db._id r = oid ->
  List.find (fun x => N.eqb (Db._id x) oid) (l ++ [r])%list = Some r.
Proof.
  induction 1 as [|y l Hy _ IH]; simpl; intros Hr.
  - by rewrite Hr, N.eqb_refl.
  - destruct (N.eqb_spec (Db._id y) oid); [done|]. by apply IH.
Qed.

(** ** Files a run touches *)

Lemma tc_elem_of {A} (x : A) l : TCElemOf x l -> x ∈ l.
Proof. induction 1; [by left|by right]. Qed.

(** [m] changes the uploads directory only at the paths [ps]. *)
Class Touches {A} (ps : list string) (m : M A) : Prop :=
  touches : forall s p, p ∉ ps -> files (fst (m s)) !! p = files s !! p.

Ltac solve_touches := intros ?s ?p ?Hp; repeat case_match; reflexivity.

Section TouchesPrims.
Variable w : World.
Variable ps : list string.

Global Instance bind_touches {A B} (m : M A) (k : A -> M B) :
  Touches ps m -> (forall a, Touches ps (k a)) -> Touches ps (m ≫= k).
Proof.
  intros Hm Hk s p Hp. specialize (Hm s p Hp). unfold mbind, M_bind.
  destruct (m s) as [s1 [a|e]]; simpl in *; [|exact Hm]. rewrite <- Hm. by apply Hk.
Qed.

Global Instance ret_touches {A} (a : A) : Touches ps (mret a).
Proof. solve_touches. Qed.
Global Instance Date_now_touches : Touches ps (Date_now w).
Proof. solve_touches. Qed.
Global Instance transcribeAudio_touches a : Touches ps (transcribeAudio w a).
Proof. unfold transcribeAudio. solve_touches. Qed.
Global Instance connectToDatabase_touches : Touches ps (connectToDatabase w).
Proof. unfold connectToDatabase. solve_touches. Qed.
Global Instance readFileSync_base64_touches p : Touches ps (readFileSync_base64 p).
Proof. unfold readFileSync_base64. solve_touches. Qed.
Global Instance new_ObjectId_touches : Touches ps new_ObjectId.
Proof. solve_touches. Qed.
Global Instance insertOne_touches r : Touches ps (insertOne w r).
Proof. unfold insertOne. solve_touches. Qed.
Global Instance enter_cleanup_touches : Touches ps enter_cleanup.
Proof. solve_touches. Qed.

Global Instance writeFileAsync_touches p d `{!TCElemOf p ps} : Touches ps (writeFileAsync w p d).
Proof.
  intros s q Hq. unfold writeFileAsync. destruct (write_ok w); simpl; [|done].
  apply lookup_insert_ne. intros ->. by apply Hq, tc_elem_of.
Qed.
Global Instance generateThumbnail_touches a b `{!TCElemOf b ps} :
  Touches ps (generateThumbnail w a b).
Proof.
  intros s q Hq. unfold generateThumbnail. case_match; simpl; [|done].
  apply lookup_insert_ne. intros ->. by apply Hq, tc_elem_of.
Qed.
Global Instance extractAudio_touches a b `{!TCElemOf b ps} : Touches ps (extractAudio w a b).
Proof.
  intros s q Hq. unfold extractAudio. case_match; simpl; [|done].
  apply lookup_insert_ne. intros ->. by apply Hq, tc_elem_of.
Qed.
Global Instance unlinkSync_touches p `{!TCElemOf p ps} : Touches ps (unlinkSync w p).
Proof.
  intros s q Hq. unfold unlinkSync. repeat case_match; simpl; try done.
  apply lookup_delete_ne. intros ->. by apply Hq, tc_elem_of.
Qed.
End TouchesPrims.

Lemma processVideo_touches w f s p :
  p ∉ [tempVideoPath_of (clock w (reads s)); thumbnailPath_of (clock w (S (reads s)));
       audioPath_of (clock w (S (S (reads s))))] ->
  files (fst (processVideo w f s)) !! p = files s !! p.
Proof.
  intros Hp. unfold processVideo. rewrite try_catch_rethrow, bind_step, allocate_paths_eq.
  cbv beta iota.
  match goal with |- files (fst (?m ?st)) !! _ = _ =>
    exact (touches (ps:=[_;_;_]) (m:=m) st p Hp) end.
Qed.

(** ** Hourly cleanup *)

Lemma sweep_entry_sub now stat uf acc file p :
  sweep_entry now stat uf acc file !! p = None \/
  sweep_entry now stat uf acc file !! p = acc !! p.
Proof.
  unfold sweep_entry. repeat case_match; auto.
  destruct (decide (path_join uploadsDir file = p)) as [<-|Hne].
  - left. apply lookup_delete_eq.
  - right. by apply lookup_delete_ne.
Qed.

Lemma sweep_foldl_sub now stat uf entries acc p :
  foldl (sweep_entry now stat uf) acc entries !! p = None \/
  foldl (sweep_entry now stat uf) acc entries !! p = acc !! p.
Proof.
  revert acc. induction entries as [|file l IH]; intros acc; simpl; [by right|].
  destruct (IH (sweep_entry now stat uf acc file)) as [H|H]; [by left|].
  rewrite H. apply sweep_entry_sub.
Qed.

Lemma sweep_foldl_recent now stat uf entries acc p :
  (forall mt, stat p = Some mt -> (now - mt <= 3600000)%Z) ->
  foldl (sweep_entry now stat uf) acc entries !! p = acc !! p.
Proof.
  intros Hrec. revert acc. induction entries as [|file l IH]; intros acc; simpl; [done|].
  rewrite IH. unfold sweep_entry.
  destruct (stat (path_join uploadsDir file)) as [mt|] eqn:Hst; [|done].
  destruct (decide (path_join uploadsDir file = p)) as [Heq|Hne].
  - rewrite Heq in Hst. specialize (Hrec mt Hst).
    destruct (Z.ltb_spec 3600000 (now - mt)); [lia|done].
  - case_match; [by apply lookup_delete_ne|done].
Qed.

(** ** The cached handle *)

(** [m] never drops the cached database handle. *)
Class KeepsCached {A} (m : M A) : Prop :=
  keeps_cached : forall s, cachedDb s = true -> cachedDb (fst (m s)) = true.

Global Instance mono_keeps_cached {A} (m : M A) : Mono m -> KeepsCached m | 10.
Proof. intros Hm s Hs. exact (proj2 (Hm s) Hs). Qed.

Global Instance bind_keeps_cached {A B} (m : M A) (k : A -> M B) :
  KeepsCached m -> (forall a, KeepsCached (k a)) -> KeepsCached (m ≫= k).
Proof.
  intros Hm Hk s Hs. specialize (Hm s Hs). unfold mbind, M_bind.
  destruct (m s) as [s1 [a|e]]; simpl in *; [|exact Hm]. by apply Hk.
Qed.

Ltac solve_keeps_cached := intros ?s ?Hs; repeat case_match; simpl; exact Hs.

Section CachedPrims.
Variable w : World.
Global Instance ret_keeps_cached {A} (a : A) : KeepsCached (mret a).
Proof. solve_keeps_cached. Qed.
Global Instance throw_keeps_cached {A} e : KeepsCached (@throw A e).
Proof. solve_keeps_cached. Qed.
Global Instance new_ObjectId_keeps_cached : KeepsCached new_ObjectId.
Proof. solve_keeps_cached. Qed.
Global Instance insertOne_keeps_cached r : KeepsCached (insertOne w r).
Proof. unfold insertOne. solve_keeps_cached. Qed.
Global Instance enter_cleanup_keeps_cached : KeepsCached enter_cleanup.
Proof. solve_keeps_cached. Qed.
Global Instance select_server_keeps_cached : KeepsCached (select_server w).
Proof. unfold select_server. solve_keeps_cached. Qed.
Global Instance gets_keeps_cached {A} (g : St -> A) : KeepsCached (gets g).
Proof. solve_keeps_cached. Qed.
Global Instance set_store_keeps_cached (g : St -> list Db.Recording) :
  KeepsCached (modify (fun s => set_store (g s) s)).
Proof. solve_keeps_cached. Qed.
End CachedPrims.

Lemma processVideo_keeps_cached w f : KeepsCached (processVideo w f).
Proof.
  intros s. unfold processVideo. rewrite try_catch_rethrow. revert s.
  apply bind_keeps_cached; [apply _|]. intros [[p1 p2] p3]. cbv beta iota. apply _.
Qed.

Lemma getRecording_keeps_cached w id : KeepsCached (getRecording w id).
Proof.
  apply bind_keeps_cached; [apply _|]. intros _.
  destruct (ObjectId_of_string id); apply _.
Qed.

Lemma deleteRecording_keeps_cached w id : KeepsCached (deleteRecording w id).
Proof.
  apply bind_keeps_cached; [apply _|]. intros _.
  destruct (ObjectId_of_string id); apply _.
Qed.

Lemma getRecordings_keeps_cached w res s s1 r :
  getRecordings w res s s1 r -> cachedDb s = true -> cachedDb s1 = true.
Proof.
  unfold getRecordings. intros H Hs.
  pose proof (keeps_cached (m:=connectToDatabase w) s Hs) as Hc.
  destruct (connectToDatabase w s) as [s0 [u|e]]; simpl in Hc;
    [destruct (db_up w)|]; destruct H as [-> _]; exact Hc.
Qed.

Lemma later_calls_cached s s2 : later_calls s s2 -> cachedDb s = true -> cachedDb s2 = true.
Proof.
  induction 1 as [s|w f s s2 _ IH|w id s s2 _ IH|w id s s2 _ IH|w res s s1 r s2 Hl _ IH];
    intros Hs; auto.
  - apply IH, processVideo_keeps_cached, Hs.
  - apply IH, getRecording_keeps_cached, Hs.
  - apply IH, deleteRecording_keeps_cached, Hs.
  - apply IH. exact (getRecordings_keeps_cached _ _ _ _ _ Hl Hs).
Qed.

(** ** Further properties *)

(** X2. After a successful upload, [getRecording] on the returned id finds
    the record just stored: the one with the run's ObjectId, carrying the
    file's metadata and the returned transcription.  (Holds while the
    ObjectId fits its 96 bits.) *)
Theorem X2_created_recording_retrievable w f s :
  (next_oid s < 2 ^ 96)%N ->
  match processVideo w f s with
  | (s', Ok (id, t)) =>
      exists rec, getRecording w id s' = (s', Ok (Some rec)) /\
        persisted f rec /\ Db.transcription rec = Some t /\ Db._id rec = next_oid s
  | _ => True
  end.
Proof.
  intros Hlt. pose proof (processVideo_ok w f s) as Hok.
  destruct (processVideo w f s) as [s' [[id t]|e]]; [|done].
  destruct Hok as (Hup & rec & Hst & Hp & Ht & Hfresh & Hid & Hids & Hc & _).
  exists rec. split_and!; try done.
  destruct (oid_roundtrip (Db._id rec)) as [_ Hparse]; [congruence|].
  rewrite Hids, (getRecording_up w _ _ s' Hup Hparse), (set_cached_cached s' Hc), Hst.
  rewrite find_app_absent; [done|exact Hfresh|done].
Qed.

Lemma X2_witness :
  (next_oid empty_st < 2 ^ 96)%N /\
  match processVideo (good_world t0) hello_mp4 empty_st with
  | (s', Ok (id, t)) =>
      exists rec, getRecording (good_world t0) id s' = (s', Ok (Some rec)) /\
        persisted hello_mp4 rec /\ Db.transcription rec = Some t /\ Db._id rec = next_oid empty_st
  | _ => True
  end.
Proof.
  assert (H : (next_oid empty_st < 2 ^ 96)%N) by (vm_compute; reflexivity).
  split; [exact H|]. exact (X2_created_recording_retrievable (good_world t0) hello_mp4 empty_st H).
Defined.

(** X7. Uploads and deletions never give two stored records the same
    [_id]: [insertOne] refuses a duplicate key and [deleteOne] only
    removes. *)
Theorem X7_ids_stay_unique w f id s :
  NoDup (map Db._id (store s)) ->
  NoDup (map Db._id (store (fst (processVideo w f s)))) /\
  NoDup (map Db._id (store (fst (deleteRecording w id s)))).
Proof.
  intros Hnd. split.
  - exact (processVideo_keeps_unique w f s Hnd).
  - exact (deleteRecording_keeps_unique w id s Hnd).
Qed.

Lemma X7_witness :
  NoDup (map Db._id (store (st_with [rec_at 1 5; rec_at 2 6]))) /\
  NoDup (map Db._id (store (fst (processVideo (good_world t0) hello_mp4 (st_with [rec_at 1 5; rec_at 2 6]))))) /\
  NoDup (map Db._id (store (fst (deleteRecording (good_world t0) (oid_toHexString 2)
                                   (st_with [rec_at 1 5; rec_at 2 6]))))).
Proof.
  assert (H : NoDup (map Db._id (store (st_with [rec_at 1 5; rec_at 2 6]))))
    by (apply (bool_decide_unpack _); vm_compute; reflexivity).
  split; [exact H|].
  exact (X7_ids_stay_unique (good_world t0) hello_mp4 (oid_toHexString 2) _ H).
Defined.

(** X8. [deleteRecording] removes at most one record: either the
    collection is unchanged, or exactly the first record whose [_id] is the
    parsed id is removed, the others keeping their order, and the call
    succeeds. *)
Theorem X8_delete_removes_at_most_one w id s :
  let '(s', r) := deleteRecording w id s in
  store s' = store s \/
  exists l1 x l2, store s = (l1 ++ x :: l2)%list /\ store s' = (l1 ++ l2)%list /\
    ObjectId_of_string id = Some (Db._id x) /\ r = Ok tt /\
    Forall (fun y => Db._id y <> Db._id x) l1.
Proof.
  unfold deleteRecording. rewrite bind_step.
  pose proof (connectToDatabase_store w s) as Hc.
  destruct (connectToDatabase w s) as [s1 [u|e]]; simpl in Hc; [|by left].
  cbv beta iota. destruct (ObjectId_of_string id) as [oid|] eqn:Hid; [|by left].
  unfold deleteOne, select_server. rewrite bind_step.
  destruct (db_up w); simpl; [|by left].
  unfold modify. simpl.
  destruct (delete_first_split oid (store s1)) as [->|(l1 & x & l2 & Hl & Hd & Hx & Hl1)];
    [left; congruence|].
  right. exists l1, x, l2. rewrite Hx. split_and!; congruence.
Qed.

(** X10. Whatever its outcome, [processVideo] changes the uploads
    directory only at its three temporary paths; every other file is left
    as it was. *)
Theorem X10_files_outside_run_untouched w f s p :
  p <> tempVideoPath_of (clock w (reads s)) ->
  p <> thumbnailPath_of (clock w (S (reads s))) ->
  p <> audioPath_of (clock w (S (S (reads s)))) ->
  files (fst (processVideo w f s)) !! p = files s !! p.
Proof.
  intros H1 H2 H3. apply processVideo_touches.
  rewrite !elem_of_cons, elem_of_nil. tauto.
Qed.

Lemma X10_witness :
  other_upload <> tempVideoPath_of (clock no_frame_world (reads st_other)) /\
  other_upload <> thumbnailPath_of (clock no_frame_world (S (reads st_other))) /\
  other_upload <> audioPath_of (clock no_frame_world (S (S (reads st_other)))) /\
  files (fst (processVideo no_frame_world hello_mp4 st_other)) !! other_upload =
  files st_other !! other_upload.
Proof.
  assert (H1 : other_upload <> tempVideoPath_of (clock no_frame_world (reads st_other)))
    by (apply (bool_decide_unpack _); vm_compute; reflexivity).
  assert (H2 : other_upload <> thumbnailPath_of (clock no_frame_world (S (reads st_other))))
    by (apply (bool_decide_unpack _); vm_compute; reflexivity).
  assert (H3 : other_upload <> audioPath_of (clock no_frame_world (S (S (reads st_other)))))
    by (apply (bool_decide_unpack _); vm_compute; reflexivity).
  split_and!; [exact H1|exact H2|exact H3|].
  exact (X10_files_outside_run_untouched no_frame_world hello_mp4 st_other other_upload H1 H2 H3).
Defined.

(** X11. A successful run leaves the uploads directory exactly as it
    found it minus its three temporary paths (a file that already had one
    of those names is gone too). *)
Theorem X11_success_removes_exactly_temp_files w f s :
  match processVideo w f s with
  | (s', Ok _) =>
      files s' = delete (tempVideoPath_of (clock w (reads s)))
                   (delete (thumbnailPath_of (clock w (S (reads s))))
                      (delete (audioPath_of (clock w (S (S (reads s))))) (files s)))
  | _ => True
  end.
Proof.
  pose proof (processVideo_ok w f s) as Hok.
  pose proof (processVideo_touches w f s) as Ht.
  destruct (processVideo w f s) as [s' [[id t]|e]]; [|done]. simpl in Ht.
  destruct Hok as (_ & rec & _ & _ & _ & _ & _ & _ & _ & N1 & N2 & N3).
  apply map_eq. intros q.
  destruct (decide (q = tempVideoPath_of (clock w (reads s)))) as [->|H1].
  { rewrite N1. symmetry. apply lookup_delete_eq. }
  rewrite lookup_delete_ne by congruence.
  destruct (decide (q = thumbnailPath_of (clock w (S (reads s))))) as [->|H2].
  { rewrite N2. symmetry. apply lookup_delete_eq. }
  rewrite lookup_delete_ne by congruence.
  destruct (decide (q = audioPath_of (clock w (S (S (reads s)))))) as [->|H3].
  { rewrite N3. symmetry. apply lookup_delete_eq. }
  rewrite lookup_delete_ne by congruence.
  apply Ht. rewrite !elem_of_cons, elem_of_nil. tauto.
Qed.

(** X12. [DELETE /:id] answers 204 exactly when the database server is
    reachable and the id is well formed, also when no recording has that
    id; otherwise 500 (a cached handle does not help while the server is
    down).  It never answers 404. *)
Theorem X12_delete_route_status w id s :
  snd (delete_route w id s) =
  Ok (Reply (if db_up w then if ObjectId_of_string id then 204 else 500 else 500)%N None).
Proof.
  unfold delete_route, try_catch, deleteRecording, deleteOne, select_server, mbind, M_bind,
    connectToDatabase.
  destruct (cachedDb s), (db_up w), (ObjectId_of_string id); reflexivity.
Qed.

(** X13. [GET /:id] always answers and never changes the collection: 200
    with a stored record whose [_id] is the parsed id, 404 only for a well
    formed id that no stored record has, both only while the server is
    reachable, and 500 for a malformed id or an unreachable server (also
    through a cached handle). *)
Theorem X13_get_route_reply w id s :
  let '(s', r) := get_route w id s in
  store s' = store s /\
  ((exists rec, r = Ok (Reply 200 (Some rec)) /\ db_up w = true /\ In rec (store s) /\
                ObjectId_of_string id = Some (Db._id rec)) \/
   (r = Ok (Reply 404 None) /\ db_up w = true /\
    exists oid, ObjectId_of_string id = Some oid /\ Forall (fun x => Db._id x <> oid) (store s)) \/
   (r = Ok (Reply 500 None) /\ (ObjectId_of_string id = None \/ db_up w = false))).
Proof.
  destruct (db_up w) eqn:Hup.
  - destruct (ObjectId_of_string id) as [oid|] eqn:Hid.
    + unfold get_route, try_catch. rewrite bind_step, (getRecording_up w id oid s Hup Hid).
      cbv beta iota.
      destruct (List.find _ (store s)) as [rec|] eqn:Hf; simpl.
      * split; [done|]. left. exists rec. apply find_some in Hf as [Hin Heq].
        apply N.eqb_eq in Heq. split_and!; congruence.
      * split; [done|]. right; left. split_and!; [done|done|]. exists oid. split; [done|].
        apply Forall_forall. intros x Hx. apply list_elem_of_In in Hx.
        pose proof (find_none _ _ Hf x Hx) as Hn. simpl in Hn. by apply N.eqb_neq.
    + unfold get_route, try_catch, getRecording. rewrite !bind_step, (connect_up w s Hup), Hid.
      simpl. split; [done|]. right; right. split; [done|]. by left.
  - unfold get_route, try_catch, getRecording, findOne, select_server, mbind, M_bind,
      connectToDatabase.
    rewrite Hup.
    destruct (cachedDb s), (ObjectId_of_string id); simpl;
      (split; [done|]); right; right; (split; [done|]); auto.
Qed.

(** X14. The hourly cleanup never removes a file modified at most an hour
    before the run (nor one it cannot [stat]). *)
Theorem X14_sweep_keeps_recent now readdir stat uf fs p :
  (forall mt, stat p = Some mt -> (now - mt <= 3600000)%Z) ->
  sweep now readdir stat uf fs !! p = fs !! p.
Proof.
  intros Hrec. unfold sweep. destruct readdir as [entries|]; [|done].
  by apply sweep_foldl_recent.
Qed.

Lemma X14_witness :
  (forall mt, (fun _ : string => Some (Z.of_N t0)) old_temp = Some mt ->
              (Z.of_N t0 + 3600000 - mt <= 3600000)%Z) /\
  sweep (Z.of_N t0 + 3600000) (Some ["temp-1700000000000.mp4"]) (fun _ => Some (Z.of_N t0))
    (fun _ => false) sweep_fs !! old_temp = sweep_fs !! old_temp.
Proof.
  assert (H : forall mt, (fun _ : string => Some (Z.of_N t0)) old_temp = Some mt ->
                         (Z.of_N t0 + 3600000 - mt <= 3600000)%Z)
    by (intros mt Hmt; cbv beta in Hmt; injection Hmt as <-; unfold t0; simpl; lia).
  split; [exact H|].
  exact (X14_sweep_keeps_recent _ _ _ _ sweep_fs old_temp H).
Defined.

(** X15. A listed file whose modification time is more than an hour
    before the run and whose unlink succeeds is gone after the run, so a
    temporary file left by a failed upload is removed at the latest by the
    first cleanup more than an hour after it was written. *)
Theorem X15_sweep_removes_stale now entries stat uf fs file mt :
  file ∈ entries ->
  stat (path_join uploadsDir file) = Some mt ->
  (now - mt > 3600000)%Z ->
  uf (path_join uploadsDir file) = false ->
  sweep now (Some entries) stat uf fs !! path_join uploadsDir file = None.
Proof.
  intros Hin Hst Hold Huf. unfold sweep.
  apply list_elem_of_split in Hin as (l1 & l2 & ->).
  rewrite foldl_app. simpl.
  assert (Hgone : sweep_entry now stat uf (foldl (sweep_entry now stat uf) fs l1) file
                    !! path_join uploadsDir file = None).
  { unfold sweep_entry. rewrite Hst, Huf.
    destruct (Z.ltb_spec 3600000 (now - mt)); [|lia]. simpl. apply lookup_delete_eq. }
  destruct (sweep_foldl_sub now stat uf l2
              (sweep_entry now stat uf (foldl (sweep_entry now stat uf) fs l1) file)
              (path_join uploadsDir file)) as [H|H]; rewrite H; [done|exact Hgone].
Qed.

Lemma X15_witness :
  "temp-1700000000000.mp4" ∈ ["temp-1700000000000.mp4"] /\
  (fun _ : string => Some (Z.of_N t0)) (path_join uploadsDir "temp-1700000000000.mp4") =
    Some (Z.of_N t0) /\
  (Z.of_N t0 + 3600001 - Z.of_N t0 > 3600000)%Z /\
  (fun _ : string => false) (path_join uploadsDir "temp-1700000000000.mp4") = false /\
  sweep (Z.of_N t0 + 3600001) (Some ["temp-1700000000000.mp4"]) (fun _ => Some (Z.of_N t0))
    (fun _ => false) sweep_fs !! path_join uploadsDir "temp-1700000000000.mp4" = None.
Proof.
  assert (H1 : "temp-1700000000000.mp4" ∈ ["temp-1700000000000.mp4"]) by (by left).
  assert (H2 : (fun _ : string => Some (Z.of_N t0)) (path_join uploadsDir "temp-1700000000000.mp4")
               = Some (Z.of_N t0)) by reflexivity.
  assert (H3 : (Z.of_N t0 + 3600001 - Z.of_N t0 > 3600000)%Z) by lia.
  assert (H4 : (fun _ : string => false) (path_join uploadsDir "temp-1700000000000.mp4") = false)
    by reflexivity.
  split_and!; [exact H1|exact H2|exact H3|exact H4|].
  exact (X15_sweep_removes_stale _ _ _ _ sweep_fs _ _ H1 H2 H3 H4).
Defined.

(** X16. The hourly cleanup only deletes: every path either disappears or
    keeps exactly its old content; no file is created or rewritten. *)
Theorem X16_sweep_only_deletes now readdir stat uf fs p :
  sweep now readdir stat uf fs !! p = None \/
  sweep now readdir stat uf fs !! p = fs !! p.
Proof.
  unfold sweep. destruct readdir as [entries|]; [apply sweep_foldl_sub|by right].
Qed.

(** X3. Once [connectToDatabase] has succeeded, no later service call
    (upload, read, delete or listing, in any world and with any outcome)
    drops the cached handle: [connectToDatabase] keeps returning it
    without touching the state, also after the server has become
    unreachable.  The service never reconnects. *)
Theorem X3_connection_cached w s s1 u s2 w' :
  connectToDatabase w s = (s1, Ok u) -> later_calls s1 s2 ->
  connectToDatabase w' s2 = (s2, Ok tt).
Proof.
  intros Hc Hl. apply connectToDatabase_ok_cached in Hc.
  unfold connectToDatabase. by rewrite (later_calls_cached _ _ Hl Hc).
Qed.

Lemma X3_witness :
  connectToDatabase (good_world t0) empty_st = (set_cached empty_st, Ok tt) /\
  later_calls (set_cached empty_st)
    (fst (getRecording down_world "abc" (fst (processVideo down_world hello_mp4 (set_cached empty_st))))) /\
  connectToDatabase down_world
    (fst (getRecording down_world "abc" (fst (processVideo down_world hello_mp4 (set_cached empty_st)))))
  = (fst (getRecording down_world "abc" (fst (processVideo down_world hello_mp4 (set_cached empty_st)))),
     Ok tt).
Proof.
  assert (H1 : connectToDatabase (good_world t0) empty_st = (set_cached empty_st, Ok tt))
    by reflexivity.
  assert (H2 : later_calls (set_cached empty_st)
    (fst (getRecording down_world "abc" (fst (processVideo down_world hello_mp4 (set_cached empty_st)))))).
  { apply (later_upload down_world hello_mp4), (later_get down_world "abc"), later_none. }
  split_and!; [exact H1|exact H2|].
  exact (X3_connection_cached _ _ _ _ _ down_world H1 H2).
Defined.


